(** * Shallow embedding of the boat and cart-pole simulators

    Sources: [Project 3 Boat/simulator/boat.py] and
    [Project 5 HardPole/ForceControl/cartpole.py].  Floating-point numbers
    are modelled as real numbers; numpy arrays of floats as lists of reals
    (or records when the code unpacks them by position). *)

From Stdlib Require Import Reals Psatz List ZArith.
Import ListNotations.
Open Scope R_scope.

(** ** Python-level helpers shared by both simulators *)
Module Py.

(** Exceptions the code can raise. *)
Inductive PyError : Type :=
| ValueError
| IndexError
| NotImplementedError.

(** A computation that either returns a value or raises. *)
Inductive exc (A : Type) : Type :=
| Ok : A -> exc A
| Err : PyError -> exc A.
Arguments Ok {A} _.
Arguments Err {A} _.

(** Python's float [a % b]: the result carries the sign of [b], i.e.
    [a - b * floor (a / b)]. *)
Definition py_mod (a b : R) : R := a - b * IZR (Int_part (a / b)).

(** [arr[i]] on a 1-D array, for a non-negative index [i]. *)
Fixpoint py_index (l : list R) (i : nat) : exc R :=
  match l, i with
  | [], _ => Err IndexError
  | x :: _, O => Ok x
  | _ :: t, S j => py_index t j
  end.

(** [np.clip(a, lo, hi)] = [np.minimum(hi, np.maximum(a, lo))]. *)
Definition np_clip (a lo hi : R) : R := Rmin (Rmax a lo) hi.

End Py.
Import Py.

(** ** [boat.py] *)
Module Boat.

(** [@dataclass class BoatState] *)
Record BoatState : Type := mkBoatState {
  x : R;
  y : R;
  psi : R;
  Vx : R;
  Vy : R;
  omega : R;
  adapt_param1 : R;
  adapt_param2 : R
}.

(** [BoatState.from_array] *)
Definition from_array (arr : list R) : exc BoatState :=
  if negb (Nat.eqb (length arr) 8) then Err ValueError
  else Ok (mkBoatState (nth 0 arr 0) (nth 1 arr 0) (nth 2 arr 0) (nth 3 arr 0)
                       (nth 4 arr 0) (nth 5 arr 0) (nth 6 arr 0) (nth 7 arr 0)).

(** [BoatState.to_array] *)
Definition to_array (s : BoatState) : list R :=
  [x s; y s; psi s; Vx s; Vy s; omega s; adapt_param1 s; adapt_param2 s].

(** [BoatState._wrap_angle]: [(angle + np.pi) % (2 * np.pi) - np.pi] *)
Definition wrap_angle (angle : R) : R := py_mod (angle + PI) (2 * PI) - PI.

(** [BoatState.update]: the length check comes before any assignment;
    the assignments below follow the source line by line.  The result
    pairs the outcome of the call with the (possibly mutated) state. *)
Definition update (derivatives : list R) (dt : R) (self : BoatState)
  : exc unit * BoatState :=
  if negb (Nat.eqb (length derivatives) 8) then (Err ValueError, self)
  else
    let d k := nth k derivatives 0 in
    let x' := x self + d 0%nat * dt in
    let y' := y self + d 1%nat * dt in
    let psi1 := psi self + d 2%nat * dt in
    let psi2 := wrap_angle psi1 in
    let Vx' := Vx self + d 3%nat * dt in
    let Vy' := Vy self + d 4%nat * dt in
    let omega' := omega self + d 5%nat * dt in
    let a1 := adapt_param1 self + d 6%nat * dt in
    let a2 := adapt_param2 self + d 7%nat * dt in
    (Ok tt, mkBoatState x' y' psi2 Vx' Vy' omega' a1 a2).

(** [@dataclass class BoatParameters]; [damping] is the 3-element list
    [[Dx, Dy, Dpsi]] of the source, kept as a triple. *)
Record BoatParameters : Type := mkBoatParameters {
  mass : R;
  inertia : R;
  damping : R * R * R;
  L : R;
  air_density : R;
  sail_Cx : R;
  sail_Cy : R;
  sail_area : R
}.

Definition damping0 (p : BoatParameters) : R := fst (fst (damping p)).
Definition damping1 (p : BoatParameters) : R := snd (fst (damping p)).
Definition damping2 (p : BoatParameters) : R := snd (damping p).

(** [IWindField.get_wind([x, y])]: global-frame wind at a position. *)
Definition WindField : Type := R -> R -> R * R.

(** The class of a boat object: plain [Boat] or one of its subclasses. *)
Inductive BoatKind : Type :=
| PlainBoat
| DifferentialThrustBoat
| SteerableThrustBoat.

(** [class Boat]: its attributes [state], [params], [wind_field]
    ([None] or a wind field object). *)
Record BoatObj : Type := mkBoat {
  kind : BoatKind;
  state : BoatState;
  params : BoatParameters;
  wind_field : option WindField
}.

(** [Boat._kinematics] *)
Definition _kinematics (self : BoatObj) (Fx Fy M : R) : list R :=
  let s := state self in
  let p := params self in
  let dx := Vx s * cos (psi s) - Vy s * sin (psi s) in
  let dy := Vx s * sin (psi s) + Vy s * cos (psi s) in
  let dpsi := omega s in
  let '(F_sail_x, F_sail_y) :=
    match wind_field self with
    | None => (0, 0)
    | Some wf =>
        let '(V_wx_global, V_wy_global) := wf (x s) (y s) in
        let V_wx_body := cos (psi s) * V_wx_global + sin (psi s) * V_wy_global in
        let V_wy_body := - sin (psi s) * V_wx_global + cos (psi s) * V_wy_global in
        let V_aw_x := V_wx_body - Vx s in
        let V_aw_y := V_wy_body - Vy s in
        let Wind_Force := 0.5 * air_density p * sail_area p in
        (Wind_Force * sail_Cx p * V_aw_x, Wind_Force * sail_Cy p * V_aw_y)
    end in
  let dVx := ((Fx + F_sail_x) / mass p) - damping0 p * Vx s in
  let dVy := ((Fy + F_sail_y) / mass p) - damping1 p * Vy s in
  let domega := (M / inertia p) - damping2 p * omega s in
  [dx; dy; dpsi; dVx; dVy; domega].

(** [dynamics], dispatched on the class of [self]:
    [Boat.dynamics], [DifferentialThrustBoat.dynamics] and
    [SteerableThrustBoat.dynamics]. *)
Definition dynamics (self : BoatObj) (control : list R) : exc (list R) :=
  match kind self with
  | PlainBoat => Err NotImplementedError
  | DifferentialThrustBoat =>
      match py_index control 0, py_index control 1 with
      | Ok c0, Ok c1 =>
          let Fx := c0 + c1 in
          let Fy := 0 in
          let M := L (params self) * (c1 - c0) in
          Ok (_kinematics self Fx Fy M)
      | Err e, _ => Err e
      | _, Err e => Err e
      end
  | SteerableThrustBoat =>
      match py_index control 0, py_index control 1 with
      | Ok thrust, Ok theta =>
          let Fx := thrust * cos theta in
          let Fy := thrust * sin theta in
          let M := thrust * L (params self) * sin theta in
          Ok (_kinematics self Fx Fy M)
      | Err e, _ => Err e
      | _, Err e => Err e
      end
  end.

(** [Boat.update_state]: [np.concatenate] of the dynamics output with
    [adaptation_derivatives], then [self.state.update]. *)
Definition update_state (self : BoatObj) (control adaptation_derivatives : list R)
  (dt : R) : exc unit * BoatObj :=
  match dynamics self control with
  | Err e => (Err e, self)
  | Ok dyn =>
      let derivatives := dyn ++ adaptation_derivatives in
      let '(r, s') := update derivatives dt (state self) in
      (r, mkBoat (kind self) s' (params self) (wind_field self))
  end.

End Boat.

(** ** [cartpole.py] *)
Module CartPole.

(** [@dataclass class CartPoleParams] (defaults in [default_params]). *)
Record CartPoleParams : Type := mkCartPoleParams {
  m_cart : R;
  m_pole : R;
  l : R;
  g : R;
  damping : R;
  rotary_damping : R;
  max_force : R
}.

Definition default_params : CartPoleParams :=
  mkCartPoleParams 1.0 0.1 0.5 9.81 10 0.1 300.0.

(** A 4-vector [[x, x_dot, theta, theta_dot]] (a state, or the
    derivative [[x_dot, x_acc, theta_dot, theta_acc]] of one). *)
Record Vec4 : Type := mkVec4 { v0 : R; v1 : R; v2 : R; v3 : R }.

(** [CartPole.dynamics] *)
Definition dynamics (params : CartPoleParams) (state : Vec4) (force : R) : Vec4 :=
  let '(mkVec4 x x_dot theta theta_dot) := state in
  let p := params in
  let sin_theta := sin theta in
  let cos_theta := cos theta in
  let total_mass := m_cart p + m_pole p in
  let pole_mass_length := m_pole p * l p in
  let temp := (force + pole_mass_length * theta_dot ^ 2 * sin_theta
               - damping p * x_dot) / total_mass in
  let theta_acc := (g p * sin_theta - cos_theta * temp - rotary_damping p * theta_dot)
                   / (l p * (4 / 3 - m_pole p * cos_theta ^ 2 / total_mass)) in
  let x_acc := temp - pole_mass_length * theta_acc * cos_theta / total_mass in
  mkVec4 x_dot x_acc theta_dot theta_acc.

(** Element-wise numpy arithmetic on 1-D arrays of equal shape
    (the model covers the shapes of the docstring: [(N, 4)] and [(N,)]). *)
Definition vmap (f : R -> R) (a : list R) : list R := map f a.

Fixpoint vmap2 (f : R -> R -> R) (a b : list R) : list R :=
  match a, b with
  | u :: a', v :: b' => f u v :: vmap2 f a' b'
  | _, _ => []
  end.

(** [np.stack([c0, c1, c2, c3], axis=-1)] *)
Fixpoint stack4 (c0 c1 c2 c3 : list R) : list Vec4 :=
  match c0, c1, c2, c3 with
  | a :: c0', b :: c1', c :: c2', d :: c3' => mkVec4 a b c d :: stack4 c0' c1' c2' c3'
  | _, _, _, _ => []
  end.

(** [CartPole.dynamics_batch]: column by column, as numpy evaluates it. *)
Definition dynamics_batch (params : CartPoleParams) (states : list Vec4)
  (forces : list R) : list Vec4 :=
  let x := map v0 states in
  let x_dot := map v1 states in
  let theta := map v2 states in
  let theta_dot := map v3 states in
  let p := params in
  let sin_theta := vmap sin theta in
  let cos_theta := vmap cos theta in
  let total_mass := m_cart p + m_pole p in
  let pole_mass_length := m_pole p * l p in
  let temp :=
    vmap (fun t => t / total_mass)
      (vmap2 Rminus
         (vmap2 Rplus forces
            (vmap2 (fun td st => pole_mass_length * td ^ 2 * st) theta_dot sin_theta))
         (vmap (fun xd => damping p * xd) x_dot)) in
  let theta_acc :=
    vmap2 Rdiv
      (vmap2 Rminus
         (vmap2 Rminus (vmap (fun st => g p * st) sin_theta) (vmap2 Rmult cos_theta temp))
         (vmap (fun td => rotary_damping p * td) theta_dot))
      (vmap (fun ct => l p * (4 / 3 - m_pole p * ct ^ 2 / total_mass)) cos_theta) in
  let x_acc :=
    vmap2 Rminus temp
      (vmap2 (fun ta ct => pole_mass_length * ta * ct / total_mass) theta_acc cos_theta) in
  stack4 x_dot x_acc theta_dot theta_acc.

(** [self.state += derivs * dt] *)
Definition euler (s d : Vec4) (dt : R) : Vec4 :=
  mkVec4 (v0 s + v0 d * dt) (v1 s + v1 d * dt) (v2 s + v2 d * dt) (v3 s + v3 d * dt).

(** [CartPole.update]: state passing for [self.state]. *)
Definition update (params : CartPoleParams) (force dt : R) (state : Vec4) : Vec4 :=
  let force := np_clip force (- max_force params) (max_force params) in
  let derivs := dynamics params state force in
  let s := euler state derivs dt in
  mkVec4 (v0 s) (v1 s) (py_mod (v2 s + PI) (2 * PI) - PI) (v3 s).

End CartPole.

(** * Properties *)

(** ** Python's float modulo and the angle wrap *)
Module WrapFacts.

Lemma py_mod_range (a b : R) : 0 < b -> 0 <= py_mod a b < b.
Proof.
  intros Hb. unfold py_mod.
  destruct (base_Int_part (a / b)) as [H1 H2].
  set (k := IZR (Int_part (a / b))) in *.
  set (q := a / b) in *.
  assert (Ha : a = b * q) by (unfold q; field; lra).
  rewrite Ha. split; nra.
Qed.

Lemma py_mod_exact (a b : R) (z : Z) :
  0 < b -> IZR z * b <= a < IZR z * b + b -> py_mod a b = a - b * IZR z.
Proof.
  intros Hb [Hlo Hhi]. unfold py_mod.
  replace (Int_part (a / b)) with z; [reflexivity |].
  apply Int_part_spec.
  assert (Hq : a / b = a * / b) by reflexivity.
  assert (Hinv : 0 < / b) by (apply Rinv_0_lt_compat; lra).
  assert (Hz : IZR z = IZR z * b * / b) by (field; lra).
  split.
  - assert (IZR z + 1 = (IZR z * b + b) * / b) by (field; lra).
    assert (a * / b < (IZR z * b + b) * / b) by (apply Rmult_lt_compat_r; lra).
    lra.
  - rewrite Hq, Hz. apply Rmult_le_compat_r; lra.
Qed.

(** The wrap formula [(t + pi) % (2 pi) - pi], shared by
    [BoatState._wrap_angle] and [CartPole.update]. *)
Lemma wrap_formula_range (t : R) :
  - PI <= py_mod (t + PI) (2 * PI) - PI < PI.
Proof.
  pose proof PI_RGT_0.
  destruct (py_mod_range (t + PI) (2 * PI)); lra.
Qed.

Lemma wrap_formula_id (t : R) :
  - PI <= t < PI -> py_mod (t + PI) (2 * PI) - PI = t.
Proof.
  intros Ht. pose proof PI_RGT_0.
  rewrite (py_mod_exact _ _ 0%Z); [lra | lra |].
  rewrite Rmult_0_l. lra.
Qed.

Lemma wrap_formula_pi : py_mod (PI + PI) (2 * PI) - PI = - PI.
Proof.
  pose proof PI_RGT_0.
  rewrite (py_mod_exact _ _ 1%Z); [lra | lra |]. simpl; lra.
Qed.

End WrapFacts.

(** ** Claim C3 *)

(** C3 (counterexample): at [theta = pi] the wrap returns [-pi], which is
    not strictly greater than [-pi]: the range (-pi, pi] is not met. *)
Lemma C3_wrap_angle_pi_outside :
  ~ (- PI < Boat.wrap_angle PI /\ Boat.wrap_angle PI <= PI).
Proof.
  unfold Boat.wrap_angle. rewrite WrapFacts.wrap_formula_pi. lra.
Qed.

(** C3 (amended): for every real [theta], the wrap
    [((theta + pi) mod 2 pi) - pi] of [BoatState._wrap_angle] lies in the
    half-open interval [-pi, pi); it is the identity on that interval, and
    [CartPole.update] applies the same formula to the pole angle. *)
Theorem C3_wrap_angle_range :
  forall theta : R,
    (- PI <= Boat.wrap_angle theta < PI)
    /\ (- PI <= theta < PI -> Boat.wrap_angle theta = theta)
    /\ (forall p f dt s,
          CartPole.v2 (CartPole.update p f dt s)
          = Boat.wrap_angle (CartPole.v2 (CartPole.euler s (CartPole.dynamics p s
              (np_clip f (- CartPole.max_force p) (CartPole.max_force p))) dt))).
Proof.
  intros theta. split; [| split].
  - apply WrapFacts.wrap_formula_range.
  - apply WrapFacts.wrap_formula_id.
  - intros p f dt s. reflexivity.
Qed.

(** C3 witness: the theorem at [theta = 0]. *)
Lemma C3_wrap_angle_range_witness :
  - PI <= 0 < PI /\ Boat.wrap_angle 0 = 0.
Proof.
  pose proof PI_RGT_0.
  split; [lra |].
  apply (proj1 (proj2 (C3_wrap_angle_range 0))). lra.
Defined.

(** ** Claim C8 *)

(** C8: after every [CartPole.update] (any force, any [dt], also [dt = 0])
    the pole angle lies in [-pi, pi); so with [dt = 0] the update is not
    the identity on a state whose angle starts outside that range. *)
Theorem C8_update_wraps_theta :
  forall (p : CartPole.CartPoleParams) (force dt : R) (s : CartPole.Vec4),
    (- PI <= CartPole.v2 (CartPole.update p force dt s) < PI)
    /\ (~ (- PI <= CartPole.v2 s < PI) -> CartPole.update p force 0 s <> s).
Proof.
  intros p force dt s. split.
  - apply WrapFacts.wrap_formula_range.
  - intros Hout Heq.
    pose proof (WrapFacts.wrap_formula_range
                  (CartPole.v2 (CartPole.euler s (CartPole.dynamics p s
                     (np_clip force (- CartPole.max_force p) (CartPole.max_force p))) 0))).
    apply Hout. rewrite <- Heq. exact H.
Qed.

(** C8 witness: a state with pole angle [7 > pi] is moved by [update] with
    [dt = 0]. *)
Lemma C8_update_wraps_theta_witness :
  ~ (- PI <= 7 < PI)
  /\ CartPole.update CartPole.default_params 0 0 (CartPole.mkVec4 0 0 7 0)
     <> CartPole.mkVec4 0 0 7 0.
Proof.
  pose proof PI_4.
  split; [lra |].
  apply (proj2 (C8_update_wraps_theta CartPole.default_params 0 0
                  (CartPole.mkVec4 0 0 7 0))).
  simpl. lra.
Defined.

(** ** Claims C1 and C2: one step of the boat *)
Module BoatStep.
Import Boat.

(** Two literal lists of reals that agree entry-wise up to ring laws. *)
Ltac cons_ring :=
  match goal with
  | |- (_ :: _) = (_ :: _) => apply f_equal2; [unfold Rdiv; ring | cons_ring]
  | |- [] = [] => reflexivity
  end.

(** A differential-thrust boat at rest at the origin, without wind,
    after one [update_state] with control [[a, b]] and zero adaptation
    derivatives. *)
Lemma differential_step_from_rest (p : BoatParameters) (a b dt : R) :
  update_state
    (mkBoat DifferentialThrustBoat (mkBoatState 0 0 0 0 0 0 0 0) p None)
    [a; b] [0; 0] dt
  = (Ok tt,
     mkBoat DifferentialThrustBoat
       (mkBoatState 0 0 0 ((a + b) / mass p * dt) ((0 + 0) / mass p * dt)
          ((L p * (b - a)) / inertia p * dt) 0 0)
       p None).
Proof.
  unfold update_state, dynamics, _kinematics, update. simpl.
  rewrite cos_0, sin_0.
  assert (Hw : wrap_angle (0 + 0 * dt) = 0).
  { unfold wrap_angle. replace (0 + 0 * dt) with 0 by ring.
    apply WrapFacts.wrap_formula_id. pose proof PI_RGT_0. lra. }
  rewrite Hw. f_equal. f_equal. f_equal; unfold Rdiv; ring.
Qed.

(** The output of [_kinematics] with a wind field that returns [[0, 0]]
    everywhere, against the one with [wind_field = None]. *)
Lemma kinematics_zero_wind (k : BoatKind) (s : BoatState) (p : BoatParameters)
  (Fx Fy M : R) :
  _kinematics (mkBoat k s p (Some (fun _ _ => (0, 0)))) Fx Fy M
  = match _kinematics (mkBoat k s p None) Fx Fy M with
    | [dx; dy; dpsi; dVx; dVy; domega] =>
        [dx; dy; dpsi;
         dVx - (0.5 * air_density p * sail_area p * sail_Cx p * Vx s) / mass p;
         dVy - (0.5 * air_density p * sail_area p * sail_Cy p * Vy s) / mass p;
         domega]
    | d => d
    end.
Proof.
  unfold _kinematics. simpl. cons_ring.
Qed.

End BoatStep.

(** C1 (counterexample): the stated end-to-end step gives [Vx = 0.2], not
    [0.1] (the two thrusts of 1 add up to [Fx = 2], and [2 / 10 = 0.2]). *)
Lemma C1_end_to_end_vx_not_0_1 :
  let b := Boat.mkBoat Boat.DifferentialThrustBoat
             (Boat.mkBoatState 0 0 0 0 0 0 0 0)
             (Boat.mkBoatParameters 10 5 (0, 0, 0) 1 1.225 1 1 1) None in
  Boat.Vx (Boat.state (snd (Boat.update_state b [1; 1] [0; 0] 1))) <> 0.1.
Proof.
  cbv zeta. rewrite BoatStep.differential_step_from_rest. simpl. lra.
Qed.

(** C1 (amended): a [DifferentialThrustBoat] with all-zero state,
    [mass = 10], [inertia = 5], [damping = [0, 0, 0]], [L = 1] and no wind
    field (whatever its air and sail constants), after one
    [update_state] with control [(1, 1)], zero adaptation derivatives and
    [dt = 1], has [Vx = 0.2] and its seven other components equal to 0. *)
Theorem C1_end_to_end_step :
  forall rho cx cy area : R,
    let p := Boat.mkBoatParameters 10 5 (0, 0, 0) 1 rho cx cy area in
    Boat.update_state
      (Boat.mkBoat Boat.DifferentialThrustBoat (Boat.mkBoatState 0 0 0 0 0 0 0 0) p None)
      [1; 1] [0; 0] 1
    = (Ok tt,
       Boat.mkBoat Boat.DifferentialThrustBoat (Boat.mkBoatState 0 0 0 0.2 0 0 0 0) p None).
Proof.
  intros rho cx cy area p. unfold p.
  rewrite BoatStep.differential_step_from_rest. simpl.
  f_equal. f_equal. f_equal; lra.
Qed.

(** C2 (counterexample): a differential-thrust boat moving forward
    ([Vx = 1]) with unit air and sail constants: the wind field returning
    [[0, 0]] gives a different dynamics output than no wind field, since
    the apparent wind [0 - Vx] produces a sail force. *)
Lemma C2_zero_wind_differs :
  let s := Boat.mkBoatState 0 0 0 1 0 0 0 0 in
  let p := Boat.mkBoatParameters 1 1 (0, 0, 0) 1 1 1 1 1 in
  Boat.dynamics (Boat.mkBoat Boat.DifferentialThrustBoat s p (Some (fun _ _ => (0, 0)))) [0; 0]
  <> Boat.dynamics (Boat.mkBoat Boat.DifferentialThrustBoat s p None) [0; 0].
Proof.
  simpl. rewrite ?cos_0, ?sin_0.
  intros H. injection H. intros. lra.
Qed.

(** C2 (amended): for every boat kind, state, parameters and control, the
    boat whose wind field returns [[0, 0]] everywhere has the same
    [dynamics] outcome as the boat without wind field except that
    [dVx] and [dVy] additionally lose the sail drag of the apparent wind
    [-Vx] (resp. [-Vy]):
    [0.5 * air_density * sail_area * sail_Cx * Vx / mass] (resp. [Cy], [Vy]).
    The two coincide when [Vx = Vy = 0] or those sail constants vanish. *)
Theorem C2_zero_wind_dynamics :
  forall (k : Boat.BoatKind) (s : Boat.BoatState) (p : Boat.BoatParameters)
         (control : list R),
    Boat.dynamics (Boat.mkBoat k s p (Some (fun _ _ => (0, 0)))) control
    = match Boat.dynamics (Boat.mkBoat k s p None) control with
      | Ok [dx; dy; dpsi; dVx; dVy; domega] =>
          Ok [dx; dy; dpsi;
              dVx - (0.5 * Boat.air_density p * Boat.sail_area p * Boat.sail_Cx p
                     * Boat.Vx s) / Boat.mass p;
              dVy - (0.5 * Boat.air_density p * Boat.sail_area p * Boat.sail_Cy p
                     * Boat.Vy s) / Boat.mass p;
              domega]
      | r => r
      end.
Proof.
  intros k s p control.
  destruct k; unfold Boat.dynamics; cbn -[Boat._kinematics]; [reflexivity | |];
    destruct (py_index control 0), (py_index control 1);
    cbn -[Boat._kinematics]; try reflexivity;
    rewrite BoatStep.kinematics_zero_wind; reflexivity.
Qed.

(** ** Claim C4: batched cart-pole dynamics *)
Module BatchFacts.
Import CartPole.

Lemma dynamics_batch_nil (p : CartPoleParams) (forces : list R) :
  dynamics_batch p [] forces = [].
Proof. reflexivity. Qed.

Lemma dynamics_batch_cons (p : CartPoleParams) (s : Vec4) (ss : list Vec4)
  (f : R) (fs : list R) :
  dynamics_batch p (s :: ss) (f :: fs) = dynamics p s f :: dynamics_batch p ss fs.
Proof. destruct s. reflexivity. Qed.

Lemma dynamics_batch_length (p : CartPoleParams) (ss : list Vec4) (fs : list R) :
  length fs = length ss -> length (dynamics_batch p ss fs) = length ss.
Proof.
  revert fs. induction ss as [| s ss IH]; intros [| f fs] Hlen;
    cbn [length] in *; try discriminate; [reflexivity |].
  rewrite dynamics_batch_cons. cbn [length]. f_equal. apply IH. congruence.
Qed.

Lemma dynamics_batch_nth (p : CartPoleParams) (ss : list Vec4) (fs : list R) :
  length fs = length ss ->
  forall i s f, nth_error ss i = Some s -> nth_error fs i = Some f ->
    nth_error (dynamics_batch p ss fs) i = Some (dynamics p s f).
Proof.
  revert fs. induction ss as [| s0 ss IH]; intros [| f0 fs] Hlen i s f Hs Hf;
    cbn [length] in *; try discriminate.
  - destruct i; discriminate.
  - rewrite dynamics_batch_cons.
    destruct i as [| i]; cbn [nth_error] in *.
    + congruence.
    + apply IH; congruence.
Qed.

End BatchFacts.

(** C4: for every parameter record and every [N] states with [N] forces,
    [dynamics_batch] returns [N] rows and row [i] is
    [dynamics(params, states[i], forces[i])]; it depends on row [i] of
    the inputs only. *)
Theorem C4_dynamics_batch_rowwise :
  forall (p : CartPole.CartPoleParams) (states : list CartPole.Vec4) (forces : list R),
    (1 <= length states)%nat ->
    length forces = length states ->
    length (CartPole.dynamics_batch p states forces) = length states
    /\ (forall i s f, nth_error states i = Some s -> nth_error forces i = Some f ->
          nth_error (CartPole.dynamics_batch p states forces) i
          = Some (CartPole.dynamics p s f))
    /\ (forall i s f states' forces',
          length states' = length states -> length forces' = length states ->
          nth_error states i = Some s -> nth_error forces i = Some f ->
          nth_error states' i = Some s -> nth_error forces' i = Some f ->
          nth_error (CartPole.dynamics_batch p states' forces') i
          = nth_error (CartPole.dynamics_batch p states forces) i).
Proof.
  intros p states forces _ Hlen. split; [| split].
  - apply BatchFacts.dynamics_batch_length; exact Hlen.
  - apply BatchFacts.dynamics_batch_nth; exact Hlen.
  - intros i s f states' forces' Hl1 Hl2 Hs Hf Hs' Hf'.
    rewrite (BatchFacts.dynamics_batch_nth p states' forces' ltac:(congruence) i s f Hs' Hf').
    rewrite (BatchFacts.dynamics_batch_nth p states forces Hlen i s f Hs Hf).
    reflexivity.
Qed.

(** C4 witness: two rows, from the default parameters. *)
Lemma C4_dynamics_batch_rowwise_witness :
  nth_error
    (CartPole.dynamics_batch CartPole.default_params
       [CartPole.mkVec4 0 0 0 0; CartPole.mkVec4 1 2 3 4] [5; 6]) 1
  = Some (CartPole.dynamics CartPole.default_params (CartPole.mkVec4 1 2 3 4) 6).
Proof.
  apply (proj1 (proj2 (C4_dynamics_batch_rowwise CartPole.default_params
    [CartPole.mkVec4 0 0 0 0; CartPole.mkVec4 1 2 3 4] [5; 6]
    ltac:(simpl; lia) eq_refl))); reflexivity.
Defined.

(** ** Claims C5 and C7: [BoatState] conversions and the length check *)

(** C5: [from_array] and [update] raise [ValueError] exactly when their
    array does not have 8 elements (so for lengths 0, 7 and 9), succeed
    otherwise, and a raising [update] leaves the state as it was. *)
Theorem C5_boat_state_length_check :
  forall (arr : list R),
    (Boat.from_array arr = Err ValueError <-> length arr <> 8%nat)
    /\ ((exists s, Boat.from_array arr = Ok s) <-> length arr = 8%nat)
    /\ (forall (dt : R) (s : Boat.BoatState),
          (fst (Boat.update arr dt s) = Err ValueError <-> length arr <> 8%nat)
          /\ ((fst (Boat.update arr dt s) = Ok tt) <-> length arr = 8%nat)
          /\ (length arr <> 8%nat -> snd (Boat.update arr dt s) = s)).
Proof.
  intros arr. unfold Boat.from_array, Boat.update.
  destruct (Nat.eqb (length arr) 8) eqn:E; simpl.
  - apply Nat.eqb_eq in E. rewrite E.
    split; [| split].
    + split; [discriminate | intros H; congruence].
    + split; [reflexivity | intros _; eexists; reflexivity].
    + intros dt s. split; [| split].
      * split; [discriminate | intros H; congruence].
      * split; reflexivity.
      * intros H; congruence.
  - apply Nat.eqb_neq in E.
    split; [| split].
    + split; [intros _; exact E | reflexivity].
    + split; [intros [s H]; discriminate | intros H; congruence].
    + intros dt s. split; [| split].
      * split; [intros _; exact E | reflexivity].
      * split; [discriminate | intros H; congruence].
      * reflexivity.
Qed.

(** C5 witness: the lengths 0, 7 and 9 all raise. *)
Lemma C5_boat_state_length_check_witness :
  Boat.from_array [] = Err ValueError
  /\ Boat.from_array [0; 0; 0; 0; 0; 0; 0] = Err ValueError
  /\ Boat.from_array [0; 0; 0; 0; 0; 0; 0; 0; 0] = Err ValueError.
Proof.
  split; [| split].
  - apply (proj1 (C5_boat_state_length_check [])). simpl; discriminate.
  - apply (proj1 (C5_boat_state_length_check [0; 0; 0; 0; 0; 0; 0])). simpl; discriminate.
  - apply (proj1 (C5_boat_state_length_check [0; 0; 0; 0; 0; 0; 0; 0; 0])).
    simpl; discriminate.
Defined.

(** C7: [from_array (to_array s)] gives back [s], and [to_array] lists
    the fields in the order x, y, psi, Vx, Vy, omega, adapt1, adapt2. *)
Theorem C7_boat_state_roundtrip :
  forall s : Boat.BoatState,
    Boat.from_array (Boat.to_array s) = Ok s
    /\ Boat.to_array s = [Boat.x s; Boat.y s; Boat.psi s; Boat.Vx s; Boat.Vy s;
                          Boat.omega s; Boat.adapt_param1 s; Boat.adapt_param2 s].
Proof.
  intros [x y psi vx vy om a1 a2]. split; reflexivity.
Qed.

(** ** Claim C6: force saturation of the cart-pole *)

Lemma np_clip_10x (M : R) : np_clip (10 * M) (- M) M = np_clip M (- M) M.
Proof.
  unfold np_clip, Rmax, Rmin.
  repeat (destruct (Rle_dec _ _)); lra.
Qed.

Lemma np_clip_range (a M : R) : 0 <= M -> - M <= np_clip a (- M) M <= M.
Proof.
  intros HM. unfold np_clip, Rmax, Rmin.
  repeat (destruct (Rle_dec _ _)); lra.
Qed.

(** C6: for every parameter record, state and [dt], [CartPole.update] with
    force [10 * max_force] gives the same state as with force
    [max_force]; [update] is total (it never raises), and for
    [max_force >= 0] the force it uses is clamped into
    [[-max_force, max_force]]. *)
Theorem C6_update_saturation :
  forall (p : CartPole.CartPoleParams) (dt : R) (s : CartPole.Vec4),
    CartPole.update p (10 * CartPole.max_force p) dt s
    = CartPole.update p (CartPole.max_force p) dt s
    /\ (0 <= CartPole.max_force p -> forall f,
          - CartPole.max_force p
          <= np_clip f (- CartPole.max_force p) (CartPole.max_force p)
          <= CartPole.max_force p).
Proof.
  intros p dt s. split.
  - unfold CartPole.update. rewrite np_clip_10x. reflexivity.
  - intros HM f. apply np_clip_range. exact HM.
Qed.

(** C6 witness: the default [max_force = 300]. *)
Lemma C6_update_saturation_witness :
  let M := CartPole.max_force CartPole.default_params in
  - M <= np_clip (10 * M) (- M) M <= M.
Proof.
  intros M; unfold M.
  apply (proj2 (C6_update_saturation CartPole.default_params 0
                  (CartPole.mkVec4 0 0 0 0))); simpl; lra.
Defined.

(** ** Claims C9 and C10: [Boat.update_state] and the plain [Boat] *)
Module UpdateStateFacts.
Import Boat.

Lemma kinematics_length (b : BoatObj) (Fx Fy M : R) :
  length (_kinematics b Fx Fy M) = 6%nat.
Proof.
  unfold _kinematics.
  destruct (wind_field b) as [wf |]; [destruct (wf _ _) |]; reflexivity.
Qed.

Lemma dynamics_length (b : BoatObj) (control d : list R) :
  dynamics b control = Ok d -> length d = 6%nat.
Proof.
  unfold dynamics. destruct (kind b); [discriminate | |];
    destruct (py_index control 0), (py_index control 1); try discriminate;
    intros H; injection H as <-; apply kinematics_length.
Qed.

Lemma boat_eta (b : BoatObj) :
  mkBoat (kind b) (state b) (params b) (wind_field b) = b.
Proof. destruct b; reflexivity. Qed.

Lemma dynamics_two_controls (k : BoatKind) (st : BoatState) (p : BoatParameters)
  (w : option WindField) (c0 c1 : R) :
  k <> PlainBoat -> exists d, dynamics (mkBoat k st p w) [c0; c1] = Ok d.
Proof.
  intros Hk. destruct k; [congruence | |]; eexists; reflexivity.
Qed.

End UpdateStateFacts.

(** C9: whenever [adaptation_derivatives] does not have 2 elements,
    [Boat.update_state] raises and leaves the boat unchanged; when the
    [dynamics] call itself succeeds (a 6-vector), the error is the
    [ValueError] of the length-8 check of [BoatState.update]. *)
Theorem C9_update_state_adaptation_length :
  forall (b : Boat.BoatObj) (control adaptation_derivatives : list R) (dt : R),
    length adaptation_derivatives <> 2%nat ->
    (exists e, fst (Boat.update_state b control adaptation_derivatives dt) = Err e)
    /\ snd (Boat.update_state b control adaptation_derivatives dt) = b
    /\ (forall d, Boat.dynamics b control = Ok d ->
          fst (Boat.update_state b control adaptation_derivatives dt) = Err ValueError).
Proof.
  intros b control ad dt Hlen.
  unfold Boat.update_state.
  destruct (Boat.dynamics b control) as [dyn | e] eqn:Hd.
  - pose proof (UpdateStateFacts.dynamics_length b control dyn Hd) as H6.
    assert (Hne : Nat.eqb (length (dyn ++ ad)) 8 = false).
    { apply Nat.eqb_neq. rewrite length_app. lia. }
    unfold Boat.update. rewrite Hne. simpl.
    split; [eexists; reflexivity | split].
    + apply UpdateStateFacts.boat_eta.
    + intros d _. reflexivity.
  - split; [eexists; reflexivity | split; [reflexivity |]].
    intros d H; discriminate.
Qed.

(** C9 witness: a differential-thrust boat given one adaptation
    derivative. *)
Lemma C9_update_state_adaptation_length_witness :
  let b := Boat.mkBoat Boat.DifferentialThrustBoat (Boat.mkBoatState 0 0 0 0 0 0 0 0)
             (Boat.mkBoatParameters 10 5 (0, 0, 0) 1 0 0 0 0) None in
  fst (Boat.update_state b [1; 1] [0] 1) = Err ValueError
  /\ snd (Boat.update_state b [1; 1] [0] 1) = b.
Proof.
  intros b.
  destruct (C9_update_state_adaptation_length b [1; 1] [0] 1 ltac:(simpl; lia))
    as [_ [Hs Hv]].
  split; [| exact Hs].
  apply (Hv (Boat._kinematics b (1 + 1) 0 (1 * (1 - 1)))). reflexivity.
Defined.

(** C10: on a plain [Boat], [dynamics] raises [NotImplementedError] for
    every control, and so does [update_state], leaving the boat as it
    was; the [DifferentialThrustBoat] and [SteerableThrustBoat] variants
    return a derivative vector for every 2-element control. *)
Theorem C10_plain_boat_not_implemented :
  forall (st : Boat.BoatState) (p : Boat.BoatParameters) (w : option Boat.WindField),
    (forall control : list R,
        Boat.dynamics (Boat.mkBoat Boat.PlainBoat st p w) control = Err NotImplementedError
        /\ forall (ad : list R) (dt : R),
             Boat.update_state (Boat.mkBoat Boat.PlainBoat st p w) control ad dt
             = (Err NotImplementedError, Boat.mkBoat Boat.PlainBoat st p w))
    /\ (forall c0 c1 : R,
          (exists d, Boat.dynamics (Boat.mkBoat Boat.DifferentialThrustBoat st p w) [c0; c1]
                     = Ok d)
          /\ (exists d, Boat.dynamics (Boat.mkBoat Boat.SteerableThrustBoat st p w) [c0; c1]
                        = Ok d)).
Proof.
  intros st p w. split.
  - intros control. split; [reflexivity |]. intros ad dt. reflexivity.
  - intros c0 c1. split; apply UpdateStateFacts.dynamics_two_controls; discriminate.
Qed.

(** * Further properties of the code *)

Module ExtraWrap.

Lemma Int_part_shift (r : R) (k : Z) : Int_part (r + IZR k) = (Int_part r + k)%Z.
Proof.
  symmetry. apply Int_part_spec.
  destruct (base_Int_part r) as [H1 H2].
  rewrite plus_IZR. lra.
Qed.

End ExtraWrap.

(** X1: [BoatState._wrap_angle] is [2 pi]-periodic: shifting the angle by
    any whole number of turns does not change the wrapped value. *)
Theorem X1_wrap_angle_periodic :
  forall (theta : R) (k : Z), Boat.wrap_angle (theta + 2 * PI * IZR k) = Boat.wrap_angle theta.
Proof.
  intros theta k. pose proof PI_RGT_0.
  unfold Boat.wrap_angle, py_mod.
  replace ((theta + 2 * PI * IZR k + PI) / (2 * PI))
    with ((theta + PI) / (2 * PI) + IZR k) by (field; lra).
  rewrite ExtraWrap.Int_part_shift, plus_IZR. ring.
Qed.

(** X2: wrapping is idempotent: a wrapped angle is left as it is by a
    second wrap. *)
Theorem X2_wrap_angle_idempotent :
  forall theta : R, Boat.wrap_angle (Boat.wrap_angle theta) = Boat.wrap_angle theta.
Proof.
  intros theta. unfold Boat.wrap_angle at 1.
  apply WrapFacts.wrap_formula_id, WrapFacts.wrap_formula_range.
Qed.

(** X3: [to_array] after a successful [from_array] gives back the input
    array: for every 8-element array, [from_array] succeeds and
    [to_array] of the result is the array itself. *)
Theorem X3_from_array_to_array :
  forall arr : list R, length arr = 8%nat ->
    exists s, Boat.from_array arr = Ok s /\ Boat.to_array s = arr.
Proof.
  intros arr Hlen.
  do 8 (destruct arr as [| ? arr]; [discriminate |]).
  destruct arr; [| discriminate].
  eexists. split; reflexivity.
Qed.

(** X3 witness. *)
Lemma X3_from_array_to_array_witness :
  exists s, Boat.from_array [1; 2; 3; 4; 5; 6; 7; 8] = Ok s
            /\ Boat.to_array s = [1; 2; 3; 4; 5; 6; 7; 8].
Proof.
  apply X3_from_array_to_array. reflexivity.
Defined.

(** X4: after every successful [Boat.update_state] (any boat kind, wind,
    control, adaptation derivatives and [dt]) the heading [psi] of the
    boat lies in [-pi, pi). *)
Theorem X4_update_state_heading_wrapped :
  forall (b : Boat.BoatObj) (control ad : list R) (dt : R),
    fst (Boat.update_state b control ad dt) = Ok tt ->
    - PI <= Boat.psi (Boat.state (snd (Boat.update_state b control ad dt))) < PI.
Proof.
  intros b control ad dt.
  unfold Boat.update_state.
  destruct (Boat.dynamics b control) as [dyn | e]; [| discriminate].
  unfold Boat.update.
  destruct (negb (Nat.eqb (length (dyn ++ ad)) 8)); [discriminate |].
  intros _. apply WrapFacts.wrap_formula_range.
Qed.

(** X4 witness: a differential-thrust boat at rest. *)
Lemma X4_update_state_heading_wrapped_witness :
  let b := Boat.mkBoat Boat.DifferentialThrustBoat (Boat.mkBoatState 0 0 0 0 0 0 0 0)
             (Boat.mkBoatParameters 10 5 (0, 0, 0) 1 0 0 0 0) None in
  - PI <= Boat.psi (Boat.state (snd (Boat.update_state b [1; 1] [0; 0] 1))) < PI.
Proof.
  intros b. apply X4_update_state_heading_wrapped. reflexivity.
Defined.

(** X5: [BoatState.update] with an 8-element derivative vector and
    [dt = 0], or with all derivatives 0, changes nothing but the heading,
    which is wrapped; a heading already in [-pi, pi) is kept, so then the
    state is unchanged. *)
Theorem X5_boat_update_no_motion :
  forall (d : list R) (dt : R) (s : Boat.BoatState),
    length d = 8%nat -> (dt = 0 \/ Forall (fun v => v = 0) d) ->
    Boat.update d dt s
    = (Ok tt, Boat.mkBoatState (Boat.x s) (Boat.y s) (Boat.wrap_angle (Boat.psi s))
                 (Boat.Vx s) (Boat.Vy s) (Boat.omega s)
                 (Boat.adapt_param1 s) (Boat.adapt_param2 s))
    /\ (- PI <= Boat.psi s < PI -> Boat.update d dt s = (Ok tt, s)).
Proof.
  intros d dt s Hlen Hz.
  assert (Hk : forall k, nth k d 0 * dt = 0).
  { intros k. destruct Hz as [-> | Hf]; [ring |].
    destruct (Nat.lt_ge_cases k (length d)) as [Hl | Hl].
    - rewrite (proj1 (Forall_nth _ d) Hf k 0 Hl). ring.
    - rewrite nth_overflow by exact Hl. ring. }
  assert (Heq : Boat.update d dt s
    = (Ok tt, Boat.mkBoatState (Boat.x s) (Boat.y s) (Boat.wrap_angle (Boat.psi s))
                 (Boat.Vx s) (Boat.Vy s) (Boat.omega s)
                 (Boat.adapt_param1 s) (Boat.adapt_param2 s))).
  { unfold Boat.update. rewrite Hlen. simpl. rewrite !Hk, !Rplus_0_r. reflexivity. }
  split; [exact Heq |].
  intros Hr. rewrite Heq. unfold Boat.wrap_angle.
  rewrite WrapFacts.wrap_formula_id by exact Hr. destruct s; reflexivity.
Qed.

(** X5 witness: [dt = 0] on a state with heading 1. *)
Lemma X5_boat_update_no_motion_witness :
  Boat.update [1; 2; 3; 4; 5; 6; 7; 8] 0 (Boat.mkBoatState 0 0 1 0 0 0 0 0)
  = (Ok tt, Boat.mkBoatState 0 0 1 0 0 0 0 0).
Proof.
  pose proof PI_RGT_0. pose proof PI_4.
  apply (proj2 (X5_boat_update_no_motion [1; 2; 3; 4; 5; 6; 7; 8] 0
                  (Boat.mkBoatState 0 0 1 0 0 0 0 0) eq_refl (or_introl eq_refl))).
  pose proof PI2_3_2.
  simpl. lra.
Defined.

Module ExtraBoat.
Import Boat.

Lemma kinematics_kind (k1 k2 : BoatKind) (s : BoatState) (p : BoatParameters)
  (w : option WindField) (Fx Fy M : R) :
  _kinematics (mkBoat k1 s p w) Fx Fy M = _kinematics (mkBoat k2 s p w) Fx Fy M.
Proof. reflexivity. Qed.

Lemma cos_sin_sq (a : R) : cos a * cos a + sin a * sin a = 1.
Proof. pose proof (sin2_cos2 a) as H. unfold Rsqr in H. lra. Qed.

Lemma rotation_norm (u v c s : R) :
  c * c + s * s = 1 -> (u * c - v * s) ^ 2 + (u * s + v * c) ^ 2 = u ^ 2 + v ^ 2.
Proof.
  intros H.
  transitivity ((u * u + v * v) * (c * c + s * s)); [ring | rewrite H; ring].
Qed.

End ExtraBoat.

(** X6: the position rates computed by [_kinematics] are the body
    velocity rotated by the heading: their squared norm equals
    [Vx^2 + Vy^2], and the heading rate is [omega], whatever the forces,
    the parameters and the wind. *)
Theorem X6_kinematics_speed_preserved :
  forall (b : Boat.BoatObj) (Fx Fy M : R),
    let d := Boat._kinematics b Fx Fy M in
    nth 0 d 0 ^ 2 + nth 1 d 0 ^ 2
    = Boat.Vx (Boat.state b) ^ 2 + Boat.Vy (Boat.state b) ^ 2
    /\ nth 2 d 0 = Boat.omega (Boat.state b).
Proof.
  intros b Fx Fy M d. unfold d, Boat._kinematics.
  pose proof (ExtraBoat.cos_sin_sq (Boat.psi (Boat.state b))) as Hcs.
  destruct (Boat.wind_field b) as [wf |]; [destruct (wf _ _) |]; simpl;
    (split; [apply ExtraBoat.rotation_norm; exact Hcs | reflexivity]).
Qed.



(** X8: a [SteerableThrustBoat] commanded with thrust [T] at angle 0 has
    the same dynamics as a [DifferentialThrustBoat] with the same state,
    parameters and wind whose two thrusters each give [T / 2]. *)
Theorem X8_steerable_straight_is_differential :
  forall (st : Boat.BoatState) (p : Boat.BoatParameters) (w : option Boat.WindField)
         (T : R),
    Boat.dynamics (Boat.mkBoat Boat.SteerableThrustBoat st p w) [T; 0]
    = Boat.dynamics (Boat.mkBoat Boat.DifferentialThrustBoat st p w) [T / 2; T / 2].
Proof.
  intros st p w T. unfold Boat.dynamics. cbn -[Boat._kinematics].
  rewrite cos_0, sin_0.
  rewrite (ExtraBoat.kinematics_kind Boat.SteerableThrustBoat Boat.DifferentialThrustBoat).
  f_equal. f_equal; field.
Qed.

(** X9: both thruster variants raise [IndexError] on a control array of
    fewer than 2 elements. *)
Theorem X9_short_control_index_error :
  forall (k : Boat.BoatKind) (st : Boat.BoatState) (p : Boat.BoatParameters)
         (w : option Boat.WindField) (control : list R),
    k <> Boat.PlainBoat -> (length control < 2)%nat ->
    Boat.dynamics (Boat.mkBoat k st p w) control = Err IndexError.
Proof.
  intros k st p w control Hk Hlen.
  destruct control as [| a [| b control]]; simpl in Hlen; try lia;
    destruct k; try congruence; reflexivity.
Qed.

(** X9 witness. *)
Lemma X9_short_control_index_error_witness :
  Boat.dynamics (Boat.mkBoat Boat.SteerableThrustBoat (Boat.mkBoatState 0 0 0 0 0 0 0 0)
                   (Boat.mkBoatParameters 1 1 (0, 0, 0) 1 0 0 0 0) None) [1]
  = Err IndexError.
Proof.
  apply X9_short_control_index_error; [discriminate | simpl; lia].
Defined.

(** X10: when the wind field returns, at the boat's position, exactly the
    boat's own global-frame velocity [(dx, dy)], the apparent wind is zero
    and [_kinematics] gives the same output as without wind field. *)
Theorem X10_wind_at_boat_velocity_no_sail_force :
  forall (k : Boat.BoatKind) (st : Boat.BoatState) (p : Boat.BoatParameters)
         (wf : Boat.WindField) (Fx Fy M : R),
    wf (Boat.x st) (Boat.y st)
    = (Boat.Vx st * cos (Boat.psi st) - Boat.Vy st * sin (Boat.psi st),
       Boat.Vx st * sin (Boat.psi st) + Boat.Vy st * cos (Boat.psi st)) ->
    Boat._kinematics (Boat.mkBoat k st p (Some wf)) Fx Fy M
    = Boat._kinematics (Boat.mkBoat k st p None) Fx Fy M.
Proof.
  intros k st p wf Fx Fy M Hw.
  unfold Boat._kinematics. cbn [Boat.wind_field Boat.state Boat.params]. rewrite Hw.
  pose proof (ExtraBoat.cos_sin_sq (Boat.psi st)) as Hcs.
  set (c := cos (Boat.psi st)) in *. set (sn := sin (Boat.psi st)) in *.
  set (u := Boat.Vx st). set (v := Boat.Vy st).
  assert (Hx : c * (u * c - v * sn) + sn * (u * sn + v * c) - u = 0).
  { transitivity (u * (c * c + sn * sn) - u); [ring | rewrite Hcs; ring]. }
  assert (Hy : - sn * (u * c - v * sn) + c * (u * sn + v * c) - v = 0).
  { transitivity (v * (c * c + sn * sn) - v); [ring | rewrite Hcs; ring]. }
  rewrite Hx, Hy. rewrite !Rmult_0_r, !Rplus_0_r. reflexivity.
Qed.

(** X10 witness: a boat heading 0 at [Vx = 2] in a uniform wind [(2, 0)]. *)
Lemma X10_wind_at_boat_velocity_no_sail_force_witness :
  let st := Boat.mkBoatState 0 0 0 2 0 0 0 0 in
  let p := Boat.mkBoatParameters 1 1 (0, 0, 0) 1 1 1 1 1 in
  Boat._kinematics (Boat.mkBoat Boat.DifferentialThrustBoat st p
                      (Some (fun _ _ => (2 * cos 0 - 0 * sin 0, 2 * sin 0 + 0 * cos 0)))) 1 0 0
  = Boat._kinematics (Boat.mkBoat Boat.DifferentialThrustBoat st p None) 1 0 0.
Proof.
  intros st p. apply X10_wind_at_boat_velocity_no_sail_force. reflexivity.
Defined.

(** X11: without a wind field the boat's dynamics does not depend on its
    position [(x, y)] nor on the two adaptation estimates: two states
    that agree on [psi], [Vx], [Vy] and [omega] give the same outcome for
    every boat kind and control. *)
Theorem X11_no_wind_dynamics_position_free :
  forall (k : Boat.BoatKind) (st st' : Boat.BoatState) (p : Boat.BoatParameters)
         (control : list R),
    Boat.psi st = Boat.psi st' -> Boat.Vx st = Boat.Vx st' ->
    Boat.Vy st = Boat.Vy st' -> Boat.omega st = Boat.omega st' ->
    Boat.dynamics (Boat.mkBoat k st p None) control
    = Boat.dynamics (Boat.mkBoat k st' p None) control.
Proof.
  intros k [x y ps vx vy om a1 a2] [x' y' ps' vx' vy' om' a1' a2'] p control;
    simpl; intros -> -> -> ->. reflexivity.
Qed.

(** X11 witness. *)
Lemma X11_no_wind_dynamics_position_free_witness :
  let p := Boat.mkBoatParameters 1 1 (0, 0, 0) 1 1 1 1 1 in
  Boat.dynamics (Boat.mkBoat Boat.SteerableThrustBoat (Boat.mkBoatState 0 0 1 2 3 4 5 6) p None)
    [1; 1]
  = Boat.dynamics (Boat.mkBoat Boat.SteerableThrustBoat (Boat.mkBoatState 7 8 1 2 3 4 0 0) p None)
      [1; 1].
Proof.
  intros p. apply X11_no_wind_dynamics_position_free; reflexivity.
Defined.

(** X12: a [SteerableThrustBoat] without wind couples its torque to its
    lateral force through the lever arm ([M = L * Fy]): for non-zero mass
    and inertia, [inertia * (domega + Dpsi * omega)]
    equals [L * mass * (dVy + Dy * Vy)] for every thrust and angle. *)
Theorem X12_steerable_torque_from_side_force :
  forall (st : Boat.BoatState) (p : Boat.BoatParameters) (thrust theta : R),
    Boat.mass p <> 0 -> Boat.inertia p <> 0 ->
    exists d, Boat.dynamics (Boat.mkBoat Boat.SteerableThrustBoat st p None) [thrust; theta]
              = Ok d
      /\ Boat.inertia p * (nth 5 d 0 + Boat.damping2 p * Boat.omega st)
         = Boat.L p * Boat.mass p * (nth 4 d 0 + Boat.damping1 p * Boat.Vy st).
Proof.
  intros st p thrust theta Hm Hi. eexists. split; [reflexivity |]. simpl.
  field. split; assumption.
Qed.

(** X12 witness. *)
Lemma X12_steerable_torque_from_side_force_witness :
  exists d, Boat.dynamics
              (Boat.mkBoat Boat.SteerableThrustBoat (Boat.mkBoatState 0 0 0 0 1 1 0 0)
                 (Boat.mkBoatParameters 10 5 (1, 1, 1) 2 0 0 0 0) None) [3; 1] = Ok d
    /\ 5 * (nth 5 d 0 + 1 * 1) = 2 * 10 * (nth 4 d 0 + 1 * 1).
Proof.
  apply (X12_steerable_torque_from_side_force (Boat.mkBoatState 0 0 0 0 1 1 0 0)
           (Boat.mkBoatParameters 10 5 (1, 1, 1) 2 0 0 0 0) 3 1); simpl; lra.
Defined.

Module ExtraCartPole.
Import CartPole.

Lemma trig_period_Z (k : Z) (a : R) :
  sin (a + 2 * IZR k * PI) = sin a /\ cos (a + 2 * IZR k * PI) = cos a.
Proof.
  destruct k as [| q | q].
  - simpl. rewrite Rmult_0_r, Rmult_0_l, Rplus_0_r. split; reflexivity.
  - replace (IZR (Z.pos q)) with (INR (Pos.to_nat q))
      by (rewrite INR_IZR_INZ, positive_nat_Z; reflexivity).
    split; [apply sin_period | apply cos_period].
  - set (b := a + 2 * IZR (Z.neg q) * PI).
    assert (Ha : a = b + 2 * INR (Pos.to_nat q) * PI).
    { unfold b. rewrite INR_IZR_INZ, positive_nat_Z.
      rewrite <- Pos2Z.opp_pos, opp_IZR. ring. }
    rewrite Ha. split; symmetry; [apply sin_period | apply cos_period].
Qed.

Lemma np_clip_in_range (f M : R) : - M <= f <= M -> np_clip f (- M) M = f.
Proof.
  intros Hf. unfold np_clip, Rmax, Rmin.
  repeat (destruct (Rle_dec _ _)); lra.
Qed.

Lemma np_clip_above (f M : R) : 0 <= M -> M <= f -> np_clip f (- M) M = M.
Proof.
  intros HM Hf. unfold np_clip, Rmax, Rmin.
  repeat (destruct (Rle_dec _ _)); lra.
Qed.

Lemma np_clip_below (f M : R) : 0 <= M -> f <= - M -> np_clip f (- M) M = - M.
Proof.
  intros HM Hf. unfold np_clip, Rmax, Rmin.
  repeat (destruct (Rle_dec _ _)); lra.
Qed.

End ExtraCartPole.

(** X13: the upright rest state with zero force is a fixed point of the
    cart-pole dynamics: for parameters whose total mass and whose
    angular denominator [l * (4/3 - m_pole / total_mass)] are non-zero
    (otherwise numpy divides [0] by [0]),
    [dynamics(params, [0, 0, 0, 0], 0)] is [[0, 0, 0, 0]]. *)
Theorem X13_cartpole_upright_equilibrium :
  forall p : CartPole.CartPoleParams,
    CartPole.m_cart p + CartPole.m_pole p <> 0 ->
    CartPole.l p * (4 / 3 - CartPole.m_pole p / (CartPole.m_cart p + CartPole.m_pole p)) <> 0 ->
    CartPole.dynamics p (CartPole.mkVec4 0 0 0 0) 0 = CartPole.mkVec4 0 0 0 0.
Proof.
  intros p Hm Hd. unfold CartPole.dynamics. rewrite sin_0, cos_0.
  (* Both numerators vanish; the hypotheses rule out the [0 / 0] that
     numpy would turn into [nan]. *)
  f_equal; unfold Rdiv; ring.
Qed.

(** X13 witness: the default parameters. *)
Lemma X13_cartpole_upright_equilibrium_witness :
  CartPole.dynamics CartPole.default_params (CartPole.mkVec4 0 0 0 0) 0
  = CartPole.mkVec4 0 0 0 0.
Proof.
  apply X13_cartpole_upright_equilibrium; simpl.
  - lra.
  - assert (H1 : 1.0 + 0.1 = 11 / 10) by lra.
    rewrite H1.
    assert (H : 0.1 / (11 / 10) = 1 / 11).
    { unfold Rdiv. rewrite Rinv_mult, Rinv_inv. lra. }
    rewrite H. lra.
Defined.

(** X14: the cart-pole dynamics is mirror-symmetric: negating the whole
    state and the force negates every component of the derivative. *)
Theorem X14_cartpole_mirror_symmetry :
  forall (p : CartPole.CartPoleParams) (x x_dot theta theta_dot force : R),
    let d := CartPole.dynamics p (CartPole.mkVec4 x x_dot theta theta_dot) force in
    CartPole.dynamics p (CartPole.mkVec4 (- x) (- x_dot) (- theta) (- theta_dot)) (- force)
    = CartPole.mkVec4 (- CartPole.v0 d) (- CartPole.v1 d) (- CartPole.v2 d) (- CartPole.v3 d).
Proof.
  intros p x x_dot theta theta_dot force d. unfold d, CartPole.dynamics.
  rewrite sin_neg, cos_neg. cbn [CartPole.v0 CartPole.v1 CartPole.v2 CartPole.v3].
  f_equal; unfold Rdiv; ring.
Qed.

(** X15: [CartPole.update] commutes with moving the cart: starting from a
    cart position shifted by [c] gives the same next state shifted by
    [c] (the dynamics does not read the cart position). *)
Theorem X15_cartpole_update_translation :
  forall (p : CartPole.CartPoleParams) (force dt c x x_dot theta theta_dot : R),
    let u := CartPole.update p force dt (CartPole.mkVec4 x x_dot theta theta_dot) in
    CartPole.update p force dt (CartPole.mkVec4 (x + c) x_dot theta theta_dot)
    = CartPole.mkVec4 (CartPole.v0 u + c) (CartPole.v1 u) (CartPole.v2 u) (CartPole.v3 u).
Proof.
  intros p force dt c x x_dot theta theta_dot u. unfold u, CartPole.update, CartPole.euler.
  cbn [CartPole.v0 CartPole.v1 CartPole.v2 CartPole.v3 CartPole.dynamics].
  f_equal. ring.
Qed.

(** X16: for [max_force >= 0], every force at or above [max_force] acts in
    [CartPole.update] exactly as [max_force], every force at or below
    [-max_force] as [-max_force], and feeding [update] an already clipped
    force changes nothing (clipping is idempotent). *)
Theorem X16_cartpole_saturation :
  forall (p : CartPole.CartPoleParams) (f dt : R) (s : CartPole.Vec4),
    0 <= CartPole.max_force p ->
    (CartPole.max_force p <= f ->
       CartPole.update p f dt s = CartPole.update p (CartPole.max_force p) dt s)
    /\ (f <= - CartPole.max_force p ->
          CartPole.update p f dt s = CartPole.update p (- CartPole.max_force p) dt s)
    /\ CartPole.update p (np_clip f (- CartPole.max_force p) (CartPole.max_force p)) dt s
       = CartPole.update p f dt s.
Proof.
  intros p f dt s HM. unfold CartPole.update.
  split; [| split].
  - intros Hf. rewrite (ExtraCartPole.np_clip_above f), (ExtraCartPole.np_clip_above
      (CartPole.max_force p)); try lra; reflexivity.
  - intros Hf. rewrite (ExtraCartPole.np_clip_below f), (ExtraCartPole.np_clip_below
      (- CartPole.max_force p)); try lra; reflexivity.
  - rewrite (ExtraCartPole.np_clip_in_range (np_clip _ _ _)); [reflexivity |].
    apply np_clip_range. exact HM.
Qed.

(** X16 witness: the default limit of 300 and a force of 1000. *)
Lemma X16_cartpole_saturation_witness :
  CartPole.update CartPole.default_params 1000 0.01 (CartPole.mkVec4 0 0 0 0)
  = CartPole.update CartPole.default_params (CartPole.max_force CartPole.default_params) 0.01
      (CartPole.mkVec4 0 0 0 0).
Proof.
  apply (X16_cartpole_saturation CartPole.default_params 1000 0.01 (CartPole.mkVec4 0 0 0 0));
    simpl; lra.
Defined.

(** X17: [CartPole.update] with [dt = 0] leaves a state whose pole angle
    is already in [-pi, pi) unchanged, whatever the force. *)
Theorem X17_cartpole_update_dt0_identity :
  forall (p : CartPole.CartPoleParams) (force : R) (s : CartPole.Vec4),
    - PI <= CartPole.v2 s < PI -> CartPole.update p force 0 s = s.
Proof.
  intros p force [x xd th thd] Hr. simpl in Hr.
  unfold CartPole.update, CartPole.euler.
  cbn [CartPole.v0 CartPole.v1 CartPole.v2 CartPole.v3].
  rewrite !Rmult_0_r, !Rplus_0_r, WrapFacts.wrap_formula_id by exact Hr.
  reflexivity.
Qed.

(** X17 witness. *)
Lemma X17_cartpole_update_dt0_identity_witness :
  CartPole.update CartPole.default_params 50 0 (CartPole.mkVec4 1 2 1 4)
  = CartPole.mkVec4 1 2 1 4.
Proof.
  pose proof PI_RGT_0. pose proof PI2_3_2.
  apply X17_cartpole_update_dt0_identity. simpl. lra.
Defined.



(** X19: the cart-pole dynamics is [2 pi]-periodic in the pole angle:
    turning the pole by a whole number of turns does not change the
    derivative. *)
Theorem X19_cartpole_dynamics_angle_periodic :
  forall (p : CartPole.CartPoleParams) (x x_dot theta theta_dot force : R) (k : Z),
    CartPole.dynamics p (CartPole.mkVec4 x x_dot (theta + 2 * IZR k * PI) theta_dot) force
    = CartPole.dynamics p (CartPole.mkVec4 x x_dot theta theta_dot) force.
Proof.
  intros p x x_dot theta theta_dot force k.
  destruct (ExtraCartPole.trig_period_Z k theta) as [Hs Hc].
  unfold CartPole.dynamics. rewrite Hs, Hc. reflexivity.
Qed.
